(** * Object-oriented teaching snippets: car.cpp, shape.cpp, cell.cpp

    A shallow embedding of the three C++ programs under
    [src/routes/educational] and the properties their description states.

    - [double] is IEEE 754 binary64, modelled by Rocq's primitive [float]
      (round-to-nearest-even, one NaN: payload and sign of a NaN are not
      represented).
    - [std::string] is a sequence of bytes, modelled by [string].
    - [int] is modelled by [Z]; the programs never do arithmetic on it.
    - [std::cout] is modelled by the sequence of characters written to it so
      far; flushing is not observable in this model.
    - a member function is a state transformer on the receiver object and
      the console. *)

From Stdlib Require Import ZArith List String Ascii Bool Lia.
From Stdlib Require Import Floats DecimalString.
From Stdlib Require Import Reals Lra.
Import ListNotations.

Set Implicit Arguments.

(** ** The console and the state a member function runs in *)

Module Iostream.

(** [std::ostream], as far as the programs can observe it: the characters
    written so far, oldest first. *)
Definition ostream := string.

(** The state a body of code runs in: the receiver object ([*this], [unit]
    for a free function) and the console [std::cout]. *)
Record World (T : Type) : Type := mkWorld { self : T; cout : ostream }.

(** A computation that returns an [A]. *)
Definition M (T A : Type) : Type := World T -> A * World T.

Definition ret {T A} (a : A) : M T A := fun w => (a, w).

Definition bind {T A B} (m : M T A) (k : A -> M T B) : M T B :=
  fun w => let (a, w') := m w in k a w'.

(** Read a data member of the receiver. *)
Definition member {T A} (field : T -> A) : M T A :=
  fun w => (field (self w), w).

(** [std::cout << s] for a string or a string literal. *)
Definition put {T} (s : string) : M T unit :=
  fun w => (tt, {| self := self w; cout := (cout w ++ s)%string |}).

(** Call member function [m] on the object [obj] held by the caller; the
    caller gets the result and the object as the call left it. *)
Definition on {U T A} (obj : T) (m : M T A) : M U (A * T) :=
  fun w =>
    let (a, w') := m {| self := obj; cout := cout w |} in
    ((a, self w'), {| self := self w; cout := cout w' |}).

(** A whole program: [main] run on an empty console; the result is the
    exit status and everything that was printed. *)
Definition run {A} (prog : M unit A) : A * ostream :=
  let (a, w) := prog {| self := tt; cout := EmptyString |} in (a, cout w).

End Iostream.

Import Iostream.

Declare Scope cpp_scope.
Delimit Scope cpp_scope with cpp.
Notation "x <- m ;; k" := (bind m (fun x => k))
(at level 61, m at next level, right associativity) : cpp_scope.
Notation "m ;; k" := (bind m (fun _ => k))
(at level 61, right associativity) : cpp_scope.
Open Scope cpp_scope.
Open Scope string_scope.

(** ** Formatted output of numbers

  [operator<<] on a stream in its default state formats an [int] as
  [printf("%d")] and a [double] as [printf("%.6g")] in the "C" locale. *)

Module Format.

(** [std::endl]: a newline (and a flush). *)
Definition newline : string := String (ascii_of_nat 10) "".

(** [%d]. *)
Definition show_int (z : Z) : string := NilZero.string_of_int (Z.to_int z).

Definition digit (d : Z) : ascii := ascii_of_nat (48 + Z.to_nat d).

(** The [n] low decimal digits of [v], most significant first, before [acc]. *)
Fixpoint digits (n : nat) (v : Z) (acc : string) : string :=
  match n with
  | O => acc
  | S n' => digits n' (v / 10) (String (digit (v mod 10)) acc)
  end.

Fixpoint zeros (n : nat) : string :=
  match n with O => "" | S n' => String "0" (zeros n') end.

(** Drop the zeros that end [s]. *)
Fixpoint strip_zeros (s : string) : string :=
  match s with
  | "" => ""
  | String c r =>
      let r' := strip_zeros r in
      if ((r' =? "")%string && (c =? "0")%char)%bool then "" else String c r'
  end.

Fixpoint take (n : nat) (s : string) : string :=
  match n, s with
  | S n', String c r => String c (take n' r)
  | _, _ => ""
  end.

Fixpoint drop (n : nat) (s : string) : string :=
  match n, s with
  | S n', String c r => drop n' r
  | _, _ => s
  end.

(** The positive rational [num / den] is at least [10 ^ X]. *)
Definition ge_pow10 (num den X : Z) : bool :=
  (if X >=? 0 then 10 ^ X * den <=? num else den <=? num * 10 ^ (- X))%Z.

(** The decimal exponent of [num / den]: the largest [X], searched
    downwards from [X], with [10 ^ X <= num / den]. *)
Fixpoint floor_log10 (fuel : nat) (num den X : Z) : Z :=
  match fuel with
  | O => X
  | S fuel' =>
      if ge_pow10 num den X then X else floor_log10 fuel' num den (X - 1)%Z
  end.

(** [n / d] rounded to the nearest integer, ties to even. *)
Definition round_half_even (n d : Z) : Z :=
  let q := (n / d)%Z in
  let r := (n mod d)%Z in
  match (2 * r ?= d)%Z with
  | Lt => q
  | Gt => (q + 1)%Z
  | Eq => if Z.even q then q else (q + 1)%Z
  end.

(** [num / den] times [10 ^ k], rounded. *)
Definition scaled (num den k : Z) : Z :=
  (if k >=? 0 then round_half_even (num * 10 ^ k) den
   else round_half_even num (den * 10 ^ (- k)))%Z.

(** The [P] significant digits of [num / den] and its decimal exponent
    after rounding. *)
Definition significand (P : nat) (num den : Z) : Z * Z :=
  let X := floor_log10 700 num den 310 in
  let R := scaled num den (Z.of_nat P - 1 - X) in
  (if R =? 10 ^ Z.of_nat P then (10 ^ (Z.of_nat P - 1), X + 1) else (R, X))%Z.

Definition with_fraction (int frac : string) : string :=
  let f := strip_zeros frac in
  if (f =? "")%string then int else int ++ "." ++ f.

(** The exponent part of the [%e] style: a sign and at least two digits. *)
Definition show_exponent (X : Z) : string :=
  let a := Z.abs X in
  "e" ++ (if (X <? 0)%Z then "-" else "+")
      ++ (if (a <? 10)%Z then "0" else "") ++ show_int a.

(** [%.Pg] of the positive rational [num / den], [P >= 1]. *)
Definition show_g_pos (P : nat) (num den : Z) : string :=
  let (R, X) := significand P num den in
  let ds := digits P R "" in
  if ((-4 <=? X) && (X <? Z.of_nat P))%Z%bool then
    if (0 <=? X)%Z then
      with_fraction (take (S (Z.to_nat X)) ds) (drop (S (Z.to_nat X)) ds)
    else
      with_fraction "0" (zeros (Z.to_nat (- X - 1)) ++ ds)
  else
    with_fraction (take 1 ds) (drop 1 ds) ++ show_exponent X.

(** [%.6g] of a [double]. A NaN is written [nan]; the minus sign the stream
    writes before a NaN whose sign bit is set is not represented. *)
Definition show_double (x : float) : string :=
  match Prim2SF x with
  | S754_nan => "nan"
  | S754_infinity s => (if s then "-" else "") ++ "inf"
  | S754_zero s => (if s then "-" else "") ++ "0"
  | S754_finite s m e =>
      (if s then "-" else "") ++
      (if (0 <=? e)%Z then show_g_pos 6 (Z.pos m * 2 ^ e) 1
       else show_g_pos 6 (Z.pos m) (2 ^ (- e)))
  end.

(** [std::cout << n] and [std::cout << x]. *)
Definition put_int {T} (n : Z) : M T unit := put (show_int n).
Definition put_double {T} (x : float) : M T unit := put (show_double x).
Definition endl {T} : M T unit := put newline.

End Format.

Import Format.

(** ** car.cpp *)

Module car_cpp.

(** The three private data members; [year] is an [int], a [Z] between
    [- 2 ^ 31] and [2 ^ 31 - 1]. *)
Record Car : Type := mkCar { make : string; model : string; year : Z }.

(** [Car(const std::string& make, const std::string& model, int year)]:
    the initializer list copies the three arguments; the body is empty. *)
Definition Car_ctor (make model : string) (year : Z) : Car :=
  {| make := make; model := model; year := year |}.

(** [void displayInfo() const]. *)
Definition displayInfo : M Car unit :=
  put "Make: " ;;
  mk <- member make ;; put mk ;;
  put ", Model: " ;;
  md <- member model ;; put md ;;
  put ", Year: " ;;
  y <- member year ;; put_int y ;;
  endl.

Definition main : M unit Z :=
  let myCar := Car_ctor "Toyota" "Corolla" 2020 in
  _ <- on myCar displayInfo ;;
  ret 0%Z.

End car_cpp.

(** ** shape.cpp *)

Module shape_cpp.

(** [M_PI] of <cmath>: the [double] nearest to the decimal literal. *)
#[warnings="-inexact-float"] Definition M_PI : float :=
  3.14159265358979323846%float.

(** The abstract base class: one pure virtual member function (its virtual
    destructor is empty and has no effect). *)
Class Shape (T : Type) : Type := { area : T -> float }.

Record Circle : Type := mkCircle { radius : float }.

Definition Circle_ctor (r : float) : Circle := {| radius := r |}.

(** [Circle::area]. *)
Definition Circle_area (this : Circle) : float :=
  (M_PI * radius this * radius this)%float.

#[export] Instance Circle_Shape : Shape Circle := { area := Circle_area }.

Record Rectangle : Type := mkRectangle { width : float; height : float }.

Definition Rectangle_ctor (w h : float) : Rectangle :=
  {| width := w; height := h |}.

(** [Rectangle::area]. *)
Definition Rectangle_area (this : Rectangle) : float :=
  (width this * height this)%float.

#[export] Instance Rectangle_Shape : Shape Rectangle :=
  { area := Rectangle_area }.

(** [const Shape&]: an object of some class derived from [Shape], with the
    table of virtual functions of that class. *)
Record Shape_ref : Type :=
  mkRef { dynamic_type : Type;
          vtable : Shape dynamic_type;
          object : dynamic_type }.

(** Binding a [Circle] or a [Rectangle] to a [const Shape&]. *)
Definition as_Shape {T : Type} {vt : Shape T} (x : T) : Shape_ref :=
  {| dynamic_type := T; vtable := vt; object := x |}.

(** The virtual call [shape.area()]. *)
Definition call_area (shape : Shape_ref) : float :=
  @area (dynamic_type shape) (vtable shape) (object shape).

(** [void printArea(const Shape& shape)]. *)
Definition printArea {U : Type} (shape : Shape_ref) : M U unit :=
  put "Area: " ;; put_double (call_area shape) ;; endl.

Definition main : M unit Z :=
  let circle := Circle_ctor 5.0 in
  let rectangle := Rectangle_ctor 10.0 2.0 in
  printArea (as_Shape circle) ;;
  printArea (as_Shape rectangle) ;;
  ret 0%Z.

End shape_cpp.

(** ** cell.cpp *)

Module cell_cpp.

Record Cell : Type := mkCell { dna : string; proteins : list string }.

Definition set_proteins (ps : list string) (this : Cell) : Cell :=
  {| dna := dna this; proteins := ps |}.

(** [Cell(std::string dna) : dna(dna) { proteins = {...}; }]: [proteins]
    is default-constructed (empty), then the body assigns to it. *)
Definition Cell_ctor (dna0 : string) : Cell :=
  let this := {| dna := dna0; proteins := [] |} in
  set_proteins ["Hemoglobin"; "Insulin"] this.

Definition mitosis : M Cell unit :=
  put "Doing cell division".

Definition apoptosis : M Cell unit :=
  ret tt.

Definition replicate_dna : M Cell string :=
  l <- member dna ;;
  r <- member dna ;;
  ret (l ++ r).

Definition main : M unit Z :=
  let cell := Cell_ctor "ATCG" in
  _ <- on cell mitosis ;;
  ret 0%Z.

End cell_cpp.

(** ** Vocabulary of the statements *)

(** The line [displayInfo] prints for a car. *)
Definition car_line (c : car_cpp.Car) : string :=
  "Make: " ++ car_cpp.make c ++ ", Model: " ++ car_cpp.model c ++ ", Year: "
           ++ show_int (car_cpp.year c) ++ newline.

(** The real number a finite [double] stands for ([0] for infinities and
    NaN). *)
Definition double_value (x : float) : R :=
  match Prim2SF x with
  | S754_finite s m e =>
      ((if s then -1 else 1) * IZR (Z.pos m) * powerRZ 2 e)%R
  | _ => 0%R
  end.

(** The number of newline characters in a text: the number of lines it
    ends. *)
Fixpoint count_newlines (s : string) : nat :=
  match s with
  | "" => 0
  | String c r =>
      (if (c =? ascii_of_nat 10)%char then 1 else 0) + count_newlines r
  end.

(** A zero, a finite number or an infinity with sign bit [s]; not a NaN. *)
Definition has_sign (s : bool) (x : spec_float) : Prop :=
  match x with
  | S754_nan => False
  | S754_zero s' | S754_infinity s' | S754_finite s' _ _ => s' = s
  end.

(** A call of one of the three public member functions of [Cell]. *)
Inductive Cell_call : Type :=
  call_mitosis | call_apoptosis | call_replicate_dna.

(** The call, its result dropped. *)
Definition do_call (c : Cell_call) : M cell_cpp.Cell unit :=
  match c with
  | call_mitosis => cell_cpp.mitosis
  | call_apoptosis => cell_cpp.apoptosis
  | call_replicate_dna => _ <- cell_cpp.replicate_dna ;; ret tt
  end.

(** A sequence of calls on one cell, first to last. *)
Fixpoint do_calls (cs : list Cell_call) : M cell_cpp.Cell unit :=
  match cs with
  | [] => ret tt
  | c :: rest => do_call c ;; do_calls rest
  end.

(** What a sequence of calls prints: the text of [mitosis] once for each
    call of it. *)
Fixpoint printed_by (cs : list Cell_call) : string :=
  match cs with
  | [] => ""
  | call_mitosis :: rest => "Doing cell division" ++ printed_by rest
  | _ :: rest => printed_by rest
  end.

(** * Properties *)

(** ** Formatted output on sample values *)

Example show_int_samples :
  show_int 2020 = "2020" /\ show_int 0 = "0" /\ show_int (-12) = "-12".
Proof. repeat split. Qed.

(** Fixed notation without trailing zeros while the decimal exponent is
    between -4 and 5, scientific notation outside. *)
Example show_double_samples :
  show_double 20.0 = "20" /\
  show_double (-2.5) = "-2.5" /\
  show_double 0.0625 = "0.0625" /\
  show_double 123456.5 = "123456" /\
  show_double 1234567.0 = "1.23457e+06" /\
  show_double 999999.5 = "1e+06" /\
  show_double 0x1p-20 = "9.53674e-07" /\
  show_double (1 / 0) = "inf" /\
  show_double (0 / 0) = "nan".
Proof. repeat split. Qed.

(** ** Strings and the console *)

Lemma append_assoc (a b c : string) : (a ++ b) ++ c = a ++ (b ++ c).
Proof.
  induction a as [|x a IH]; simpl.
  - reflexivity.
  - now rewrite IH.
Qed.

Lemma append_nil_r (a : string) : a ++ "" = a.
Proof.
  induction a as [|x a IH]; simpl; [reflexivity | now rewrite IH].
Qed.

(** Printing [a] and then [b] is printing [a ++ b]. *)
Lemma put_put {T} (a b : string) (w : World T) :
  (put a ;; put b) w = put (a ++ b) w.
Proof.
  unfold bind, put; simpl. now rewrite append_assoc.
Qed.

(** Unfold the state-passing plumbing of a member function body. *)
Ltac run_body :=
  unfold bind, put_int, put_double, endl, put, member, ret, on; simpl;
  rewrite ?append_assoc; simpl.

(** ** car.cpp *)

Section CarFacts.

Import car_cpp.

Lemma displayInfo_spec (w : World Car) :
  displayInfo w = (tt, {| self := self w; cout := cout w ++ car_line (self w) |}).
Proof.
  unfold displayInfo, car_line. run_body. reflexivity.
Qed.

(** C8. The display operation of the car record is read-only: whatever the
    car and the console, after [displayInfo] the fields [make], [model] and
    [year] of the receiver are what they were before the call. *)
Theorem displayInfo_read_only (w : World Car) :
  let w' := snd (displayInfo w) in
  make (self w') = make (self w) /\
  model (self w') = model (self w) /\
  year (self w') = year (self w).
Proof.
  rewrite displayInfo_spec. simpl. repeat split.
Qed.

(** C5. For the car of [main], constructed from ["Toyota"], ["Corolla"] and
    [2020], [displayInfo] adds to the console exactly the line
    [Make: Toyota, Model: Corolla, Year: 2020], ended by the newline of
    [std::endl], and the whole program prints that line and nothing else. *)
Theorem displayInfo_Toyota_Corolla_2020 :
  let myCar := Car_ctor "Toyota" "Corolla" 2020 in
  let line := "Make: Toyota, Model: Corolla, Year: 2020" ++ newline in
  (forall out : ostream,
      displayInfo {| self := myCar; cout := out |}
      = (tt, {| self := myCar; cout := out ++ line |})) /\
  run car_cpp.main = (0%Z, line).
Proof.
  split.
  - intros out. rewrite displayInfo_spec. reflexivity.
  - reflexivity.
Qed.

End CarFacts.

(** ** shape.cpp *)

Section ShapeFacts.

Import shape_cpp.

(** [M_PI] is the double 0x1.921fb54442d18p+1. *)
Lemma M_PI_bits : Prim2SF M_PI = S754_finite false 7074237752028440 (-51).
Proof. reflexivity. Qed.

(** The virtual call selects the function of the object's own class. *)
Lemma call_area_Circle (c : Circle) : call_area (as_Shape c) = Circle_area c.
Proof. reflexivity. Qed.

Lemma call_area_Rectangle (r : Rectangle) :
  call_area (as_Shape r) = Rectangle_area r.
Proof. reflexivity. Qed.

Lemma printArea_spec {U} (shape : Shape_ref) (w : World U) :
  printArea shape w
  = (tt, {| self := self w;
            cout := cout w ++ "Area: " ++ show_double (call_area shape) ++ newline |}).
Proof.
  unfold printArea. run_body. reflexivity.
Qed.

(** C1. For the circle of radius 5.0 and the rectangle 10.0 x 2.0 of [main],
    the call of [area] through a reference to the abstract [Shape] reaches
    the function of the object's own class: [printArea] of the circle prints
    the value of [Circle::area], M_PI * 5.0 * 5.0, and [printArea] of the
    rectangle prints the value of [Rectangle::area], 10.0 * 2.0. *)
Theorem printArea_dispatch :
  let circle := Circle_ctor 5.0 in
  let rectangle := Rectangle_ctor 10.0 2.0 in
  (call_area (as_Shape circle) = Circle_area circle /\
   call_area (as_Shape rectangle) = Rectangle_area rectangle) /\
  (Circle_area circle = (M_PI * 5.0 * 5.0)%float /\
   Rectangle_area rectangle = (10.0 * 2.0)%float) /\
  (forall (U : Type) (w : World U),
      printArea (as_Shape circle) w
      = (tt, {| self := self w;
                cout := cout w ++ "Area: "
                               ++ show_double (Circle_area circle) ++ newline |}) /\
      printArea (as_Shape rectangle) w
      = (tt, {| self := self w;
                cout := cout w ++ "Area: "
                               ++ show_double (Rectangle_area rectangle) ++ newline |})) /\
  run shape_cpp.main = (0%Z, "Area: 78.5398" ++ newline ++ "Area: 20" ++ newline).
Proof.
  cbv zeta. repeat split.
  - apply printArea_spec.
  - apply printArea_spec.
Qed.

(** The terms of the series for PI / 4 = 2 atan (1/3) + atan (1/7). *)
Lemma PI_2_3_7_term (n : nat) :
  (tg_alt PI_2_3_7_tg n
   = (-1) ^ n * (2 * (/ 3) ^ (2 * n + 1) + (/ 7) ^ (2 * n + 1))
     / INR (2 * n + 1))%R.
Proof.
  unfold tg_alt, PI_2_3_7_tg, Ratan_seq. field. apply not_0_INR. lia.
Qed.

Ltac expand_series :=
  repeat (rewrite ?PI_2_3_7_term; cbn [sum_f_R0 Nat.mul Nat.add]);
  rewrite ?PI_2_3_7_term;
  repeat match goal with
    | |- context [INR ?n] =>
        let z := eval vm_compute in (Z.of_nat n) in
        replace (INR n) with (IZR z) by (rewrite INR_IZR_INZ; reflexivity)
    end;
  cbn [pow].

(** Seventeen decimals of PI, from the first terms of the series. *)
Lemma PI_17_decimals :
  (3.14159265358979323 < PI < 3.14159265358979324)%R.
Proof.
  pose proof (PI_2_3_7_ineq 10) as [L U].
  cbn [Nat.mul Nat.add] in L, U.
  revert L U. expand_series. intros L U.
  split; lra.
Qed.

Lemma Circle_area_5_bits :
  Prim2SF (area (Circle_ctor 5.0)) = S754_finite false 5526748243772219 (-46).
Proof. reflexivity. Qed.

Lemma Circle_area_5_value :
  double_value (area (Circle_ctor 5.0)) = (5526748243772219 / 2 ^ 46)%R.
Proof.
  unfold double_value. rewrite Circle_area_5_bits.
  change (-46)%Z with (- Z.of_nat 46)%Z.
  rewrite powerRZ_neg', <- pow_powerRZ. field.
Qed.

(** C2. The area of the circle of radius 5.0 is the double M_PI * 5.0 * 5.0.
    That double is also M_PI * 25.0; the real number it stands for is within
    10^-15 of pi times 25 and lies between 78.53975 and 78.53985; it prints
    as 78.5398. *)
Theorem Circle_area_5 :
  let a := area (Circle_ctor 5.0) in
  a = (M_PI * 5.0 * 5.0)%float /\
  a = (M_PI * 25.0)%float /\
  (Rabs (double_value a - 25 * PI) < / 10 ^ 15)%R /\
  (78.53975 < double_value a < 78.53985)%R /\
  show_double a = "78.5398".
Proof.
  cbv zeta. rewrite Circle_area_5_value.
  pose proof PI_17_decimals as [L U].
  repeat split; try reflexivity.
  - apply Rabs_def1; lra.
  - lra.
  - lra.
Qed.

(** C3. The area of the rectangle of width 10.0 and height 2.0 is exactly
    the double 20.0. *)
Theorem Rectangle_area_10_2 :
  area (Rectangle_ctor 10.0 2.0) = 20.0%float.
Proof. reflexivity. Qed.

(** Multiplication of binary64 values is commutative. *)
Lemma SF64mul_comm (x y : spec_float) : SF64mul x y = SF64mul y x.
Proof.
  unfold SF64mul.
  destruct x as [sx|sx| |sx mx ex], y as [sy|sy| |sy my ey]; simpl;
    try reflexivity;
    try (rewrite (xorb_comm sx sy); reflexivity).
  now rewrite (xorb_comm sx sy), (Pos.mul_comm mx my), (Z.add_comm ex ey).
Qed.

(** On [float], where all NaNs are one value. *)
Lemma float_mul_comm (x y : float) : (x * y = y * x)%float.
Proof.
  apply Prim2SF_inj. rewrite !mul_spec. apply SF64mul_comm.
Qed.

(** C10, as stated, fails at a NaN: the rectangles NaN x 1.0 and 1.0 x NaN
    both have a NaN as area, and a NaN does not compare equal to a NaN. *)
Lemma Rectangle_area_not_equal_at_nan :
  PrimFloat.eqb (area (Rectangle_ctor nan 1.0)) (area (Rectangle_ctor 1.0 nan))
  = false.
Proof. reflexivity. Qed.

(** C10, amended. For all doubles [w] and [h], the rectangle [w] x [h] and
    the rectangle [h] x [w] have the same area, which then compares equal
    with [operator==], or both areas are NaN. *)
Theorem Rectangle_area_comm_or_nan (w h : float) :
  let a := area (Rectangle_ctor w h) in
  let b := area (Rectangle_ctor h w) in
  (PrimFloat.is_nan a = false /\ PrimFloat.is_nan b = false /\
   a = b /\ PrimFloat.eqb a b = true) \/
  (PrimFloat.is_nan a = true /\ PrimFloat.is_nan b = true /\
   PrimFloat.eqb a b = false).
Proof.
  cbv zeta. simpl. unfold Rectangle_area. simpl.
  rewrite (float_mul_comm h w).
  destruct (PrimFloat.is_nan (w * h)) eqn:E; [right | left];
    unfold PrimFloat.is_nan in E; repeat split.
  - now apply negb_true_iff in E.
  - now apply negb_false_iff in E.
Qed.

(** With [operator==] the two areas compare equal unless the product is a
    NaN, which compares unequal to itself. *)
Lemma Rectangle_area_eqb (w h : float) :
  PrimFloat.eqb (area (Rectangle_ctor w h)) (area (Rectangle_ctor h w))
  = negb (PrimFloat.is_nan (w * h)).
Proof.
  simpl. unfold Rectangle_area. simpl. rewrite (float_mul_comm h w).
  unfold PrimFloat.is_nan. now rewrite negb_involutive.
Qed.

End ShapeFacts.

(** ** cell.cpp *)

Section CellFacts.

Import cell_cpp.

Lemma Cell_ctor_fields (s : string) :
  dna (Cell_ctor s) = s /\ proteins (Cell_ctor s) = ["Hemoglobin"; "Insulin"].
Proof. split; reflexivity. Qed.

Lemma replicate_dna_spec (w : World Cell) :
  replicate_dna w = (dna (self w) ++ dna (self w), w).
Proof. reflexivity. Qed.

Lemma mitosis_spec (w : World Cell) :
  mitosis w
  = (tt, {| self := self w; cout := cout w ++ "Doing cell division" |}).
Proof. reflexivity. Qed.

(** C4. On the cell constructed from ["ATCG"], [replicate_dna] returns
    ["ATCGATCG"]. *)
Theorem replicate_dna_ATCG (out : ostream) :
  fst (replicate_dna {| self := Cell_ctor "ATCG"; cout := out |}) = "ATCGATCG".
Proof. reflexivity. Qed.

(** C7. [apoptosis] has no effect: on any cell and any console it returns
    with the [dna], the [proteins] and the console as they were. *)
Theorem apoptosis_no_effect (c : Cell) (out : ostream) :
  let w' := snd (apoptosis {| self := c; cout := out |}) in
  dna (self w') = dna c /\ proteins (self w') = proteins c /\ cout w' = out.
Proof. repeat split. Qed.

(** C9. For every string [s], the cell constructed from [s] has the proteins
    ["Hemoglobin"; "Insulin"], whatever [s] is, and [replicate_dna] on it
    returns [s ++ s] and leaves the cell ([dna] and [proteins]) and the
    console as they were. *)
Theorem Cell_ctor_replicate_dna (s : string) (out : ostream) :
  proteins (Cell_ctor s) = ["Hemoglobin"; "Insulin"] /\
  let w := {| self := Cell_ctor s; cout := out |} in
  fst (replicate_dna w) = s ++ s /\
  dna (self (snd (replicate_dna w))) = s /\
  proteins (self (snd (replicate_dna w))) = ["Hemoglobin"; "Insulin"] /\
  snd (replicate_dna w) = w.
Proof. repeat split. Qed.

(** C6. Every call of a program's output operation adds one fixed line to
    the console and changes nothing else: [displayInfo] the line of the
    car, [printArea] the line [Area: ] with the area, [mitosis] on any cell
    exactly the text [Doing cell division] (no newline follows it). The
    three programs print, in all,
    [Make: Toyota, Model: Corolla, Year: 2020], then
    [Area: 78.5398] and [Area: 20], then [Doing cell division]. *)
Theorem console_output :
  (forall (c : Cell) (out : ostream),
      mitosis {| self := c; cout := out |}
      = (tt, {| self := c; cout := out ++ "Doing cell division" |})) /\
  (forall (c : car_cpp.Car) (out : ostream),
      car_cpp.displayInfo {| self := c; cout := out |}
      = (tt, {| self := c; cout := out ++ car_line c |})) /\
  (forall (U : Type) (u : U) (shape : shape_cpp.Shape_ref) (out : ostream),
      shape_cpp.printArea shape {| self := u; cout := out |}
      = (tt, {| self := u;
                cout := out ++ "Area: "
                            ++ show_double (shape_cpp.call_area shape)
                            ++ newline |})) /\
  run car_cpp.main
  = (0%Z, "Make: Toyota, Model: Corolla, Year: 2020" ++ newline) /\
  run shape_cpp.main
  = (0%Z, "Area: 78.5398" ++ newline ++ "Area: 20" ++ newline) /\
  run cell_cpp.main = (0%Z, "Doing cell division").
Proof.
  repeat split.
  - intros c out. apply displayInfo_spec.
  - intros U u shape out. apply printArea_spec.
Qed.

End CellFacts.

(** * Further properties of the three programs *)

(** ** Arithmetic of the two area formulas *)

Section AreaArithmetic.

Import shape_cpp.

(** The sign given to the rounding of a product only ends up as the sign of
    the result. *)
Lemma binary_round_aux_negb p em sx mx ex lx :
  binary_round_aux p em (negb sx) mx ex lx
  = SFopp (binary_round_aux p em sx mx ex lx).
Proof.
  unfold binary_round_aux.
  destruct (shr_fexp p em mx ex lx) as [mrs' e'].
  destruct (shr_fexp p em _ e' loc_Exact) as [mrs'' e''].
  destruct (shr_m mrs''); simpl; try reflexivity.
  destruct (Z.leb e'' (Z.sub em p)); reflexivity.
Qed.

Lemma SF64mul_opp_r (x y : spec_float) :
  SF64mul x (SFopp y) = SFopp (SF64mul x y).
Proof.
  unfold SF64mul.
  destruct x as [sx|sx| |sx mx ex], y as [sy|sy| |sy my ey]; simpl;
    rewrite <- ?negb_xorb_r; try reflexivity.
  apply binary_round_aux_negb.
Qed.

Lemma float_mul_opp_r (x y : float) : (x * (- y) = - (x * y))%float.
Proof.
  apply Prim2SF_inj. rewrite opp_spec, !mul_spec, opp_spec.
  apply SF64mul_opp_r.
Qed.

Lemma float_mul_opp_l (x y : float) : ((- x) * y = - (x * y))%float.
Proof.
  rewrite (float_mul_comm (- x) y), float_mul_opp_r. f_equal.
  apply float_mul_comm.
Qed.

Lemma float_opp_involutive (x : float) : (- - x = x)%float.
Proof.
  apply Prim2SF_inj. rewrite !opp_spec.
  destruct (Prim2SF x); simpl; rewrite ?negb_involutive; reflexivity.
Qed.

(** The predicates of [PrimFloat], read on the specification. *)
Lemma is_nan_spec (x : float) :
  PrimFloat.is_nan x
  = match Prim2SF x with S754_nan => true | _ => false end.
Proof.
  unfold PrimFloat.is_nan. rewrite eqb_spec. unfold SFeqb.
  destruct (Prim2SF x) as [s|s| |s m e]; simpl; try reflexivity.
  - destruct s; reflexivity.
  - rewrite Z.compare_refl, Pos.compare_cont_refl. destruct s; reflexivity.
Qed.

Lemma is_zero_spec (x : float) :
  PrimFloat.is_zero x
  = match Prim2SF x with S754_zero _ => true | _ => false end.
Proof.
  unfold PrimFloat.is_zero. rewrite eqb_spec. unfold SFeqb.
  change (Prim2SF zero) with (S754_zero false).
  destruct (Prim2SF x) as [s|s| |s m e]; simpl; try reflexivity;
    destruct s; reflexivity.
Qed.

Lemma is_infinity_spec (x : float) :
  PrimFloat.is_infinity x
  = match Prim2SF x with S754_infinity _ => true | _ => false end.
Proof.
  unfold PrimFloat.is_infinity. rewrite eqb_spec, abs_spec. unfold SFeqb.
  change (Prim2SF infinity) with (S754_infinity false).
  destruct (Prim2SF x) as [s|s| |s m e]; simpl; reflexivity.
Qed.

Lemma ltb_zero_spec (x : float) :
  (x <? 0)%float
  = match Prim2SF x with
    | S754_infinity s | S754_finite s _ _ => s
    | _ => false
    end.
Proof.
  rewrite ltb_spec. change (Prim2SF 0) with (S754_zero false). unfold SFltb.
  destruct (Prim2SF x) as [s|s| |s m e]; simpl; try reflexivity;
    destruct s; reflexivity.
Qed.

(** Shifting a nonnegative mantissa to the right keeps it nonnegative. *)
Lemma shr_1_nonneg (mrs : shr_record) :
  (0 <= shr_m mrs -> 0 <= shr_m (shr_1 mrs))%Z.
Proof.
  destruct mrs as [m r s]; simpl. destruct m as [|p|p]; simpl; try lia.
  destruct p; simpl; lia.
Qed.

Lemma iter_pos_invariant {A} (P : A -> Prop) (f : A -> A) :
  (forall a, P a -> P (f a)) ->
  forall n a, P a -> P (SpecFloat.iter_pos f n a).
Proof.
  intros Hf. induction n as [n IH|n IH|]; intros a Ha; simpl; auto.
Qed.

Lemma shr_fexp_nonneg p em m e l :
  (0 <= m -> 0 <= shr_m (fst (shr_fexp p em m e l)))%Z.
Proof.
  intros Hm. unfold shr_fexp, shr.
  assert (H0 : (0 <= shr_m (shr_record_of_loc m l))%Z).
  { destruct l as [|[ | | ]]; simpl; exact Hm. }
  destruct (fexp p em (Zdigits2 m + e) - e)%Z; simpl; auto.
  apply (iter_pos_invariant (fun r => 0 <= shr_m r)%Z); auto using shr_1_nonneg.
Qed.

Lemma round_nearest_even_nonneg m l :
  (0 <= m -> 0 <= round_nearest_even m l)%Z.
Proof.
  intros Hm. destruct l as [|[ | | ]]; simpl; try lia.
  destruct (Z.even m); lia.
Qed.

(** Rounding a nonnegative mantissa gives a zero, a finite number or an
    infinity of the given sign, never a NaN. *)
Lemma binary_round_aux_has_sign p em sx mx ex lx :
  (0 <= mx)%Z -> has_sign sx (binary_round_aux p em sx mx ex lx).
Proof.
  intros Hm. unfold binary_round_aux.
  pose proof (@shr_fexp_nonneg p em mx ex lx Hm) as H1.
  destruct (shr_fexp p em mx ex lx) as [mrs' e']. simpl in H1.
  pose proof (@shr_fexp_nonneg p em _ e' loc_Exact
                (@round_nearest_even_nonneg _ (loc_of_shr_record mrs') H1)) as H2.
  destruct (shr_fexp p em _ e' loc_Exact) as [mrs'' e'']. simpl in H2.
  destruct (shr_m mrs'') as [|q|q]; simpl; try reflexivity.
  - destruct (Z.leb e'' (em - p)); reflexivity.
  - lia.
Qed.

Lemma SF64mul_finite_has_sign sx mx ex sy my ey :
  has_sign (xorb sx sy)
           (SF64mul (S754_finite sx mx ex) (S754_finite sy my ey)).
Proof.
  unfold SF64mul. simpl. apply binary_round_aux_has_sign. lia.
Qed.

Lemma SFleb_zero_has_sign (x : spec_float) :
  has_sign false x -> SFleb (S754_zero false) x = true.
Proof.
  destruct x as [s|s| |s m e]; simpl; intros H; try contradiction; subst;
    reflexivity.
Qed.

Lemma is_nan_opp (x : float) :
  PrimFloat.is_nan (- x) = PrimFloat.is_nan x.
Proof.
  rewrite !is_nan_spec, opp_spec. destruct (Prim2SF x); reflexivity.
Qed.

(** X1. Unless the product of the two dimensions is a NaN, changing the
    sign of one dimension of a rectangle changes the sign of its area and
    nothing else, and changing the sign of both leaves the area as it is;
    the constructor accepts negative dimensions as they are. When the
    product is a NaN, so is the area after each of these changes. *)
Theorem Rectangle_area_opp (w h : float) :
  let a := area (Rectangle_ctor w h) in
  (PrimFloat.is_nan a = false /\
   area (Rectangle_ctor (- w) h) = (- a)%float /\
   area (Rectangle_ctor w (- h)) = (- a)%float /\
   area (Rectangle_ctor (- w) (- h)) = a) \/
  (PrimFloat.is_nan a = true /\
   PrimFloat.is_nan (area (Rectangle_ctor (- w) h)) = true /\
   PrimFloat.is_nan (area (Rectangle_ctor w (- h))) = true /\
   PrimFloat.is_nan (area (Rectangle_ctor (- w) (- h))) = true).
Proof.
  cbv zeta. simpl. unfold Rectangle_area. simpl.
  assert (E1 : (- w * h = - (w * h))%float) by apply float_mul_opp_l.
  assert (E2 : (w * - h = - (w * h))%float) by apply float_mul_opp_r.
  assert (E3 : (- w * - h = w * h)%float).
  { rewrite float_mul_opp_l, float_mul_opp_r. apply float_opp_involutive. }
  rewrite E1, E2, E3, is_nan_opp.
  destruct (PrimFloat.is_nan (w * h)); [right | left]; repeat split.
Qed.

(** X2. The area of a rectangle is a NaN exactly when a dimension is a NaN
    or one dimension is zero and the other infinite; no product of two
    finite dimensions is a NaN. *)
Theorem Rectangle_area_nan (w h : float) :
  PrimFloat.is_nan (area (Rectangle_ctor w h))
  = (PrimFloat.is_nan w || PrimFloat.is_nan h
     || (PrimFloat.is_zero w && PrimFloat.is_infinity h)
     || (PrimFloat.is_infinity w && PrimFloat.is_zero h))%bool.
Proof.
  simpl. unfold Rectangle_area. simpl.
  rewrite !is_nan_spec, !is_zero_spec, !is_infinity_spec, mul_spec.
  destruct (Prim2SF w) as [sw|sw| |sw mw ew], (Prim2SF h) as [sh|sh| |sh mh eh];
    try reflexivity.
  pose proof (SF64mul_finite_has_sign sw mw ew sh mh eh) as H.
  destruct (SF64mul _ _); simpl in *; try reflexivity; contradiction.
Qed.

(** X3. The area of a rectangle is below zero exactly when one dimension is
    below zero, the other is not, and the product is neither a zero (also
    by underflow) nor a NaN. *)
Theorem Rectangle_area_negative (w h : float) :
  let a := area (Rectangle_ctor w h) in
  (a <? 0)%float
  = (xorb (w <? 0)%float (h <? 0)%float
     && negb (PrimFloat.is_zero a) && negb (PrimFloat.is_nan a))%bool.
Proof.
  simpl. unfold Rectangle_area. simpl.
  rewrite !ltb_zero_spec, is_nan_spec, is_zero_spec, mul_spec.
  destruct (Prim2SF w) as [sw|sw| |sw mw ew], (Prim2SF h) as [sh|sh| |sh mh eh];
    try (simpl; repeat match goal with s : bool |- _ => destruct s end;
         reflexivity).
  pose proof (SF64mul_finite_has_sign sw mw ew sh mh eh) as H.
  destruct (SF64mul _ _) as [s|s| |s m e]; simpl in *; try contradiction; subst;
    rewrite ?andb_false_r, ?andb_true_r; reflexivity.
Qed.

(** Multiplying a mantissa by 2^52 and shifting it back by 52 bits. *)
Lemma iter_shr_52 (m : positive) :
  SpecFloat.iter_pos shr_1 52
    {| shr_m := Z.pos (4503599627370496 * m); shr_r := false; shr_s := false |}
  = {| shr_m := Z.pos m; shr_r := false; shr_s := false |}.
Proof. reflexivity. Qed.

Lemma digits2_shift_52 (m : positive) :
  Z.pos (digits2_pos (4503599627370496 * m))
  = (Z.pos (digits2_pos m) + 52)%Z.
Proof. cbn. lia. Qed.

(** The product of a binary64 number and 1.0 is that number: the rounding is
    exact. *)
Lemma SF64mul_one_r (s : bool) (m : positive) (e : Z) :
  SpecFloat.bounded prec emax m e = true ->
  SF64mul (S754_finite s m e) (S754_finite false 4503599627370496 (-52))
  = S754_finite s m e.
Proof.
  unfold SpecFloat.bounded, canonical_mantissa. intros H.
  apply andb_prop in H as [Hc Hb].
  apply Z.eqb_eq in Hc.
  unfold SF64mul, SFmul.
  rewrite xorb_false_r, (Pos.mul_comm m).
  unfold binary_round_aux, shr_fexp.
  cbn [Zdigits2]. rewrite digits2_shift_52.
  replace (Z.pos (digits2_pos m) + 52 + (e + -52))%Z
    with (Z.pos (digits2_pos m) + e)%Z by lia.
  rewrite Hc.
  replace (e - (e + -52))%Z with 52%Z by lia.
  cbn [shr shr_record_of_loc]. rewrite iter_shr_52.
  cbn [shr_m loc_of_shr_record round_nearest_even Zdigits2 shr_record_of_loc].
  replace (e + -52 + 52)%Z with e by lia.
  rewrite Hc, Z.sub_diag. cbn [shr shr_m].
  now rewrite Hb.
Qed.

Lemma float_mul_one_r (x : float) : (x * 1 = x)%float.
Proof.
  apply Prim2SF_inj. rewrite mul_spec.
  change (Prim2SF 1) with (S754_finite false 4503599627370496 (-52)).
  pose proof (Prim2SF_valid x) as V.
  destruct (Prim2SF x) as [s|s| |s m e];
    try (simpl; now rewrite ?xorb_false_r).
  apply SF64mul_one_r. exact V.
Qed.

(** X4. A rectangle with one side 1.0 has exactly the other side [w] as
    its area, for every double [w] that is not a NaN (zeros and infinities
    included): the product is not rounded. For a NaN [w] the area is a
    NaN. *)
Theorem Rectangle_area_unit (w : float) :
  (PrimFloat.is_nan w = false /\
   area (Rectangle_ctor w 1.0) = w /\ area (Rectangle_ctor 1.0 w) = w) \/
  (PrimFloat.is_nan w = true /\
   PrimFloat.is_nan (area (Rectangle_ctor w 1.0)) = true /\
   PrimFloat.is_nan (area (Rectangle_ctor 1.0 w)) = true).
Proof.
  simpl. unfold Rectangle_area. simpl.
  rewrite (float_mul_comm 1 w), float_mul_one_r.
  destruct (PrimFloat.is_nan w); [right | left]; repeat split.
Qed.

(** The area of a circle by the kind of its radius. *)
Lemma Circle_area_class (r : float) :
  match Prim2SF r with
  | S754_nan => Prim2SF (area (Circle_ctor r)) = S754_nan
  | S754_zero _ => Prim2SF (area (Circle_ctor r)) = S754_zero false
  | S754_infinity _ => Prim2SF (area (Circle_ctor r)) = S754_infinity false
  | S754_finite _ _ _ => has_sign false (Prim2SF (area (Circle_ctor r)))
  end.
Proof.
  simpl. unfold Circle_area. simpl. rewrite !mul_spec, M_PI_bits.
  destruct (Prim2SF r) as [s|s| |s m e] eqn:E.
  - simpl. now rewrite xorb_nilpotent.
  - simpl. now rewrite xorb_nilpotent.
  - reflexivity.
  - pose proof (SF64mul_finite_has_sign false 7074237752028440 (-51) s m e) as H.
    destruct (SF64mul (S754_finite false 7074237752028440 (-51))
                      (S754_finite s m e))
      as [s'|s'| |s' m' e']; simpl in H; try contradiction; subst s'.
    + simpl. apply xorb_nilpotent.
    + simpl. apply xorb_nilpotent.
    + pose proof (SF64mul_finite_has_sign s m' e' s m e) as H'.
      now rewrite xorb_nilpotent in H'.
Qed.

Lemma Circle_area_is_nan (r : float) :
  PrimFloat.is_nan (area (Circle_ctor r)) = PrimFloat.is_nan r.
Proof.
  rewrite !is_nan_spec. pose proof (Circle_area_class r) as H.
  destruct (Prim2SF r); try (rewrite H; reflexivity).
  destruct (Prim2SF (area (Circle_ctor r))); simpl in H;
    [reflexivity | reflexivity | contradiction | reflexivity].
Qed.

(** X5. For every radius [r] that is not a NaN, the circle of radius [- r]
    has the area of the circle of radius [r]: the constructor accepts a
    negative radius and [area] does not see its sign. For a NaN [r] both
    areas are NaN. *)
Theorem Circle_area_even (r : float) :
  (PrimFloat.is_nan r = false /\
   area (Circle_ctor (- r)) = area (Circle_ctor r)) \/
  (PrimFloat.is_nan r = true /\
   PrimFloat.is_nan (area (Circle_ctor (- r))) = true /\
   PrimFloat.is_nan (area (Circle_ctor r)) = true).
Proof.
  assert (E : area (Circle_ctor (- r)) = area (Circle_ctor r)).
  { simpl. unfold Circle_area. simpl.
    rewrite !float_mul_opp_r, float_mul_opp_l.
    apply float_opp_involutive. }
  rewrite E, Circle_area_is_nan.
  destruct (PrimFloat.is_nan r); [right | left]; repeat split.
Qed.

(** X6. The area of a circle is never below zero: [0 <= area] holds for
    every radius that is not a NaN, a negative one included, and the area is
    a NaN only for a radius that is a NaN. *)
Theorem Circle_area_nonneg (r : float) :
  (0 <=? area (Circle_ctor r))%float = negb (PrimFloat.is_nan r) /\
  PrimFloat.is_nan (area (Circle_ctor r)) = PrimFloat.is_nan r.
Proof.
  rewrite leb_spec, !is_nan_spec. change (Prim2SF 0) with (S754_zero false).
  pose proof (Circle_area_class r) as H.
  destruct (Prim2SF r) as [s|s| |s m e]; try (rewrite H; split; reflexivity).
  split.
  - now apply SFleb_zero_has_sign.
  - destruct (Prim2SF (area (Circle_ctor r))); simpl in H;
      [reflexivity | reflexivity | contradiction | reflexivity].
Qed.

(** X7. A circle whose radius is a zero of either sign has the area +0.0. *)
Theorem Circle_area_zero (r : float) :
  PrimFloat.is_zero r = true -> area (Circle_ctor r) = 0%float.
Proof.
  rewrite is_zero_spec. intros Hz. apply Prim2SF_inj.
  pose proof (Circle_area_class r) as H.
  destruct (Prim2SF r); try discriminate. exact H.
Qed.

Lemma Circle_area_zero_witness :
  PrimFloat.is_zero (- 0)%float = true /\
  area (Circle_ctor (- 0)%float) = 0%float.
Proof.
  split; [reflexivity | apply (@Circle_area_zero (- 0)%float); reflexivity].
Defined.

(** X8. A circle whose radius is an infinity of either sign has the area
    +infinity; nothing is reported. *)
Theorem Circle_area_infinite (r : float) :
  PrimFloat.is_infinity r = true -> area (Circle_ctor r) = infinity.
Proof.
  rewrite is_infinity_spec. intros Hi. apply Prim2SF_inj.
  pose proof (Circle_area_class r) as H.
  destruct (Prim2SF r); try discriminate. exact H.
Qed.

Lemma Circle_area_infinite_witness :
  PrimFloat.is_infinity neg_infinity = true /\
  area (Circle_ctor neg_infinity) = infinity.
Proof.
  split; [reflexivity | apply (@Circle_area_infinite neg_infinity); reflexivity].
Defined.

End AreaArithmetic.

(** ** Lines on the console *)

Lemma count_newlines_app (a b : string) :
  count_newlines (a ++ b) = count_newlines a + count_newlines b.
Proof.
  induction a as [|c a IH]; simpl; [reflexivity | rewrite IH; lia].
Qed.

Lemma count_newlines_cons (c : ascii) (r : string) :
  count_newlines (String c r) = 0 ->
  (c =? ascii_of_nat 10)%char = false /\ count_newlines r = 0.
Proof.
  simpl. destruct (c =? ascii_of_nat 10)%char; simpl; intros H;
    [discriminate | auto].
Qed.

(** No formatted number contains a newline. *)
Lemma count_newlines_uint (d : Decimal.uint) :
  count_newlines (NilEmpty.string_of_uint d) = 0.
Proof. induction d; simpl; auto. Qed.

Lemma count_newlines_show_int (z : Z) : count_newlines (show_int z) = 0.
Proof.
  unfold show_int. destruct (Z.to_int z) as [d|d]; simpl.
  - destruct d; try apply count_newlines_uint; reflexivity.
  - destruct d; try apply count_newlines_uint; reflexivity.
Qed.

Lemma digit_not_newline (v : Z) :
  (digit (v mod 10) =? ascii_of_nat 10)%char = false.
Proof.
  pose proof (Z.mod_pos_bound v 10 ltac:(lia)) as H.
  assert (C : (v mod 10 = 0 \/ v mod 10 = 1 \/ v mod 10 = 2 \/ v mod 10 = 3 \/
               v mod 10 = 4 \/ v mod 10 = 5 \/ v mod 10 = 6 \/ v mod 10 = 7 \/
               v mod 10 = 8 \/ v mod 10 = 9)%Z) by lia.
  repeat (destruct C as [C|C]; [rewrite C; reflexivity|]).
  rewrite C; reflexivity.
Qed.

Lemma count_newlines_digits (n : nat) : forall v acc,
  count_newlines (digits n v acc) = count_newlines acc.
Proof.
  induction n as [|n IH]; intros v acc; cbn [digits]; [reflexivity|].
  rewrite IH. cbn [count_newlines]. now rewrite digit_not_newline.
Qed.

Lemma count_newlines_zeros (n : nat) : count_newlines (zeros n) = 0.
Proof. induction n; simpl; auto. Qed.

Lemma count_newlines_take (n : nat) : forall s,
  count_newlines s = 0 -> count_newlines (take n s) = 0.
Proof.
  induction n as [|n IH]; intros [|c r] H; simpl; try reflexivity.
  apply count_newlines_cons in H as [Hc Hr]. now rewrite Hc, IH.
Qed.

Lemma count_newlines_drop (n : nat) : forall s,
  count_newlines s = 0 -> count_newlines (drop n s) = 0.
Proof.
  induction n as [|n IH]; intros [|c r] H; simpl; try reflexivity;
    try exact H.
  apply count_newlines_cons in H as [Hc Hr]. now apply IH.
Qed.

Lemma count_newlines_strip_zeros (s : string) :
  count_newlines s = 0 -> count_newlines (strip_zeros s) = 0.
Proof.
  induction s as [|c r IH]; intros H; simpl; [reflexivity|].
  apply count_newlines_cons in H as [Hc Hr].
  destruct ((strip_zeros r =? "")%string && (c =? "0")%char)%bool; simpl.
  - reflexivity.
  - now rewrite Hc, IH.
Qed.

Lemma count_newlines_with_fraction (i f : string) :
  count_newlines i = 0 -> count_newlines f = 0 ->
  count_newlines (with_fraction i f) = 0.
Proof.
  intros Hi Hf. unfold with_fraction.
  destruct (strip_zeros f =? "")%string; [exact Hi|].
  rewrite !count_newlines_app, Hi, (count_newlines_strip_zeros _ Hf).
  reflexivity.
Qed.

Lemma count_newlines_show_exponent (X : Z) :
  count_newlines (show_exponent X) = 0.
Proof.
  unfold show_exponent. rewrite !count_newlines_app, count_newlines_show_int.
  destruct (X <? 0)%Z, (Z.abs X <? 10)%Z; reflexivity.
Qed.

Lemma count_newlines_show_g_pos (P : nat) (num den : Z) :
  count_newlines (show_g_pos P num den) = 0.
Proof.
  unfold show_g_pos. destruct (significand P num den) as [R X].
  assert (D : count_newlines (digits P R "") = 0)
    by apply count_newlines_digits.
  destruct ((-4 <=? X)%Z && (X <? Z.of_nat P)%Z)%bool.
  - destruct (0 <=? X)%Z.
    + apply count_newlines_with_fraction;
        [now apply count_newlines_take | now apply count_newlines_drop].
    + apply count_newlines_with_fraction; [reflexivity|].
      now rewrite count_newlines_app, count_newlines_zeros, D.
  - rewrite count_newlines_app, count_newlines_show_exponent.
    rewrite count_newlines_with_fraction;
      [reflexivity | now apply count_newlines_take
       | now apply count_newlines_drop].
Qed.

Lemma count_newlines_show_double (x : float) :
  count_newlines (show_double x) = 0.
Proof.
  unfold show_double. destruct (Prim2SF x) as [s|s| |s m e].
  - destruct s; reflexivity.
  - destruct s; reflexivity.
  - reflexivity.
  - rewrite count_newlines_app.
    destruct (0 <=? e)%Z; rewrite count_newlines_show_g_pos;
      destruct s; reflexivity.
Qed.

(** X9. [displayInfo] prints the make and the model as they are: a call
    ends one line, and one more for every newline in the make and in the
    model. With a make and a model of one line each it prints exactly one
    line, whatever the year. *)
Theorem displayInfo_line_count (w : World car_cpp.Car) :
  count_newlines (cout (snd (car_cpp.displayInfo w)))
  = count_newlines (cout w) + count_newlines (car_cpp.make (self w))
    + count_newlines (car_cpp.model (self w)) + 1.
Proof.
  rewrite displayInfo_spec. cbn [snd cout]. unfold car_line.
  rewrite !count_newlines_app, count_newlines_show_int.
  cbn. lia.
Qed.

(** X10. Every call of [printArea] ends exactly one line, whatever the
    class of the shape and whatever its area (finite, infinite or NaN). *)
Theorem printArea_one_line (U : Type) (shape : shape_cpp.Shape_ref)
    (w : World U) :
  count_newlines (cout (snd (shape_cpp.printArea shape w)))
  = count_newlines (cout w) + 1.
Proof.
  rewrite printArea_spec. cbn [snd cout].
  rewrite !count_newlines_app, count_newlines_show_double. cbn. lia.
Qed.

(** ** Sequences of calls on a cell *)

Section CellCalls.

Import cell_cpp.

Lemma do_calls_spec (cs : list Cell_call) : forall (c : Cell) (out : ostream),
  do_calls cs {| self := c; cout := out |}
  = (tt, {| self := c; cout := out ++ printed_by cs |}).
Proof.
  induction cs as [|k rest IH]; intros c out.
  - cbn. now rewrite append_nil_r.
  - cbn [do_calls printed_by]. unfold bind.
    destruct k; cbn [do_call].
    + rewrite mitosis_spec. cbn [self cout]. rewrite IH.
      now rewrite append_assoc.
    + unfold apoptosis, ret. apply IH.
    + unfold bind. rewrite replicate_dna_spec. unfold ret. apply IH.
Qed.

Lemma count_newlines_printed_by (cs : list Cell_call) :
  count_newlines (printed_by cs) = 0.
Proof.
  induction cs as [|k rest IH]; [reflexivity|].
  destruct k; cbn [printed_by]; exact IH.
Qed.

(** X11. No public member function of [Cell] changes the cell. After any
    sequence of calls of [mitosis], [apoptosis] and [replicate_dna] on the
    cell constructed from [s], its [dna] is [s], its [proteins] are
    ["Hemoglobin"; "Insulin"] and [replicate_dna] still returns [s ++ s];
    the console has grown by the text of [mitosis] once for each call of
    it, and by no newline. *)
Theorem Cell_calls_invariant (s : string) (cs : list Cell_call)
    (out : ostream) :
  let w' := snd (do_calls cs {| self := Cell_ctor s; cout := out |}) in
  dna (self w') = s /\
  proteins (self w') = ["Hemoglobin"; "Insulin"] /\
  fst (replicate_dna w') = s ++ s /\
  cout w' = out ++ printed_by cs /\
  count_newlines (cout w') = count_newlines out.
Proof.
  cbv zeta. rewrite do_calls_spec. cbn [snd self cout].
  repeat split.
  rewrite count_newlines_app, count_newlines_printed_by. lia.
Qed.

Lemma length_append (a b : string) : length (a ++ b) = length a + length b.
Proof.
  induction a as [|c a IH]; simpl; [reflexivity | now rewrite IH].
Qed.

Lemma take_append (a b : string) : take (length a) (a ++ b) = a.
Proof.
  induction a as [|c a IH]; simpl.
  - destruct b; reflexivity.
  - now rewrite IH.
Qed.

Lemma drop_append (a b : string) : drop (length a) (a ++ b) = b.
Proof.
  induction a as [|c a IH]; simpl.
  - destruct b; reflexivity.
  - exact IH.
Qed.

(** X12. The string [replicate_dna] returns is twice as long as the [dna]
    of the cell, and each of its two halves is the [dna]; for an empty
    [dna] it is empty. *)
Theorem replicate_dna_halves (w : World Cell) :
  let r := fst (replicate_dna w) in
  let n := length (dna (self w)) in
  length r = 2 * n /\ take n r = dna (self w) /\ drop n r = dna (self w).
Proof.
  cbv zeta. rewrite replicate_dna_spec. cbn [fst].
  rewrite length_append, take_append, drop_append. repeat split. lia.
Qed.

End CellCalls.
